(** * debuginfo.h: the JIT's debug-information entry points

    The header declares three entry points of debuginfo.cpp
    ([jl_jit_add_bytes], [jl_DI_for_fptr], [jl_dylib_DI_for_fptr]) and
    defines one helper, [makeAddress], which pairs a raw address with the
    index of an object-file section.

    Part I holds the definitions: [makeAddress] as a computation over
    the program's memory, the declarations of the header as data, and
    the two resolvers, whose bodies are not in the header.  Part II
    holds what is proved of them. *)

From Stdlib Require Import ZArith List String Bool Lia.
Import ListNotations.
Local Open Scope Z_scope.

(* ================================================================== *)
(** * Part I: definitions *)

(** ** Fixed-width integers *)

(** [uint64_t]: an unsigned 64-bit integer, carried as a [Z] together
    with the range [0 .. UINT64_MAX]. *)
Definition uint64_t : Type := Z.

Definition UINT64_MAX : Z := 2 ^ 64 - 1.

Definition is_uint64 (z : Z) : Prop := 0 <= z <= UINT64_MAX.

(** ** Computations over the program's memory

    A C++ function body may read and write memory.  A computation of
    type [M St A] takes the memory before the call and gives the value
    returned together with the memory after the call. *)

Definition M (St A : Type) : Type := St -> A * St.

Definition ret {St A : Type} (a : A) : M St A := fun st => (a, st).

Definition bind {St A B : Type} (m : M St A) (k : A -> M St B) : M St B :=
  fun st => let (a, st') := m st in k a st'.

Notation "x <- m ;; k" := (bind m (fun x => k))
  (at level 61, m at next level, right associativity).

Definition result {St A : Type} (r : A * St) : A := fst r.

Definition memory_after {St A : Type} (r : A * St) : St := snd r.

(** ** The sectioned address *)

(** Modelled from the spec: the declaration of
    [llvm::object::SectionedAddress] belongs to LLVM and is not among the
    sources.  The spec describes it as "an address paired with the index
    of the object-file section that contains it"; the braced initialiser
    in [makeAddress] gives the address first and the section index
    second, both of type [uint64_t]. *)
Record SectionedAddress : Type := mkSectionedAddress {
  Address : uint64_t;
  SectionIndex : uint64_t
}.

Definition wf_SectionedAddress (sa : SectionedAddress) : Prop :=
  is_uint64 (Address sa) /\ is_uint64 (SectionIndex sa).

(** ** makeAddress *)

Section MakeAddress.

(** The program's memory, in which the object files live. *)
Variable State : Type.

(** [llvm::object::SectionRef] and its member [getIndex] are declared by
    LLVM, not by this repository: they are parameters here.  A call of
    [getIndex] is a computation like any other call: it is given the
    memory and gives a value and the memory after the call. *)
Variable SectionRef : Type.
Variable getIndex : SectionRef -> M State uint64_t.

(** <<
    static object::SectionedAddress makeAddress(
            llvm::object::SectionRef Section, uint64_t address) JL_NOTSAFEPOINT
    {
        return object::SectionedAddress{address, Section.getIndex()};
    }
    >>
    The section is passed by value; the initialiser's clauses are
    evaluated left to right, so the only call is the one to [getIndex]. *)
Definition makeAddress (Sec : SectionRef) (address : uint64_t)
  : M State SectionedAddress :=
  idx <- getIndex Sec ;;
  ret {| Address := address; SectionIndex := idx |}.

End MakeAddress.

Arguments makeAddress {State SectionRef} getIndex Sec address _.

(** A concrete reading of the two parameters, on which the statements
    below are exercised: a section reference names the object file that
    owns it and a handle inside that file, and the handle holds the
    section's index.  Sections of different object files may share an
    index.  The memory is the number of object files loaded. *)
Record ObjSection : Type := mkObjSection {
  OwningObject : nat;
  SectionPimpl : Z
}.

Definition ObjMemory : Type := nat.

Definition objGetIndex (S : ObjSection) : M ObjMemory uint64_t :=
  ret (SectionPimpl S mod 2 ^ 64).

(** A second concrete reading, in which [getIndex] reads the memory: the
    memory holds, for each object file, the address of its table of
    section headers, the handle of a section is the address of its
    header, and headers are 64 bytes apart. *)
Definition TableMemory : Type := list Z.

Definition tableGetIndex (S : ObjSection) : M TableMemory uint64_t :=
  fun st =>
    (((SectionPimpl S - nth (OwningObject S) st 0) / 64) mod 2 ^ 64, st).

(** A reading in which [getIndex] is no accessor: every call also
    counts itself in the memory and returns the count. *)
Definition countingGetIndex (S : ObjSection) : M Z uint64_t :=
  fun calls => (calls mod 2 ^ 64, calls + 1).

(** ** The C++ types of the header *)

Inductive ctype : Type :=
| Tvoid
| Tbool
| Tchar
| Tint
| Tsize_t
| Tuint64_t
| Tint64_t
| TSectionRef          (* llvm::object::SectionRef *)
| TDIContext           (* llvm::DIContext *)
| TSectionedAddress    (* object::SectionedAddress *)
| Tptr (pointee : ctype).

(** What a C++ object of a scalar type can hold. *)
Inductive value : Type :=
| Vint (z : Z)
| Vbool (b : bool)
| Vptr (a : Z)
| Vobj.

(** The values of each type.  [size_bits] is the width of [size_t] and of
    a pointer on the target (32 or 64).  [void] has no value; [char] is
    given the union of its signed and unsigned ranges. *)
Definition has_value (size_bits : Z) (t : ctype) (v : value) : Prop :=
  match t, v with
  | Tvoid, _ => False
  | Tbool, Vbool _ => True
  | Tchar, Vint z => -128 <= z <= 255
  | Tint, Vint z => - 2 ^ 31 <= z < 2 ^ 31
  | Tsize_t, Vint z => 0 <= z < 2 ^ size_bits
  | Tuint64_t, Vint z => 0 <= z < 2 ^ 64
  | Tint64_t, Vint z => - 2 ^ 63 <= z < 2 ^ 63
  | Tptr _, Vptr a => 0 <= a < 2 ^ size_bits
  | TSectionRef, Vobj => True
  | TDIContext, Vobj => True
  | TSectionedAddress, Vobj => True
  | _, _ => False
  end.

(** ** Declarations *)

Record param : Type := mkParam {
  p_type : ctype;
  p_name : string
}.

Record fundecl : Type := mkFundecl {
  f_static : bool;
  f_ret : ctype;
  f_name : string;
  f_params : list param;
  f_notsafepoint : bool;   (* the declarator ends in JL_NOTSAFEPOINT *)
  f_has_body : bool
}.

(** A parameter of pointer type is a slot the caller provides and the
    callee fills: an output.  Any other parameter is passed by value: an
    input.  [slot_type] is the type of what is passed in or written
    out. *)
Inductive direction : Type := Input | Output.

Definition p_direction (p : param) : direction :=
  match p_type p with
  | Tptr _ => Output
  | _ => Input
  end.

Definition slot_type (p : param) : ctype :=
  match p_type p with
  | Tptr t => t
  | t => t
  end.

Definition describe (p : param) : string * direction * ctype :=
  (p_name p, p_direction p, slot_type p).

Definition signature (d : fundecl) : list (string * direction * ctype) :=
  map describe (f_params d).

(** <<
    void jl_jit_add_bytes(size_t bytes) JL_NOTSAFEPOINT;
    >> *)
Definition jl_jit_add_bytes_decl : fundecl :=
  {| f_static := false;
     f_ret := Tvoid;
     f_name := "jl_jit_add_bytes";
     f_params := [ mkParam Tsize_t "bytes" ];
     f_notsafepoint := true;
     f_has_body := false |}.

(** <<
    int jl_DI_for_fptr(uint64_t fptr, uint64_t *symsize, int64_t *slide,
            llvm::object::SectionRef *Section, llvm::DIContext **context) JL_NOTSAFEPOINT;
    >> *)
Definition jl_DI_for_fptr_decl : fundecl :=
  {| f_static := false;
     f_ret := Tint;
     f_name := "jl_DI_for_fptr";
     f_params := [ mkParam Tuint64_t "fptr";
                   mkParam (Tptr Tuint64_t) "symsize";
                   mkParam (Tptr Tint64_t) "slide";
                   mkParam (Tptr TSectionRef) "Section";
                   mkParam (Tptr (Tptr TDIContext)) "context" ];
     f_notsafepoint := true;
     f_has_body := false |}.

(** <<
    bool jl_dylib_DI_for_fptr(size_t pointer, llvm::object::SectionRef *Section, int64_t *slide, llvm::DIContext **context,
        bool onlyImage, bool *isImage, uint64_t* fbase, void **saddr, char **name, char **filename) JL_NOTSAFEPOINT;
    >> *)
Definition jl_dylib_DI_for_fptr_decl : fundecl :=
  {| f_static := false;
     f_ret := Tbool;
     f_name := "jl_dylib_DI_for_fptr";
     f_params := [ mkParam Tsize_t "pointer";
                   mkParam (Tptr TSectionRef) "Section";
                   mkParam (Tptr Tint64_t) "slide";
                   mkParam (Tptr (Tptr TDIContext)) "context";
                   mkParam Tbool "onlyImage";
                   mkParam (Tptr Tbool) "isImage";
                   mkParam (Tptr Tuint64_t) "fbase";
                   mkParam (Tptr (Tptr Tvoid)) "saddr";
                   mkParam (Tptr (Tptr Tchar)) "name";
                   mkParam (Tptr (Tptr Tchar)) "filename" ];
     f_notsafepoint := true;
     f_has_body := false |}.

(** <<
    static object::SectionedAddress makeAddress(
            llvm::object::SectionRef Section, uint64_t address) JL_NOTSAFEPOINT
    >> *)
Definition makeAddress_decl : fundecl :=
  {| f_static := true;
     f_ret := TSectionedAddress;
     f_name := "makeAddress";
     f_params := [ mkParam TSectionRef "Section";
                   mkParam Tuint64_t "address" ];
     f_notsafepoint := true;
     f_has_body := true |}.

(** The header, top to bottom, and its entry points: the functions it
    declares for debuginfo.cpp to define. *)
Definition debuginfo_h : list fundecl :=
  [ jl_jit_add_bytes_decl; jl_DI_for_fptr_decl; jl_dylib_DI_for_fptr_decl;
    makeAddress_decl ].

Definition entry_points : list fundecl :=
  filter (fun d => negb (f_has_body d)) debuginfo_h.

(** The parameters of [jl_dylib_DI_for_fptr] as the specification lists
    them: "an address, output slots for section, slide, debug-info
    context, plus flags/outputs for image-only mode, whether the result
    came from a loaded image, the image's base address, symbol name, and
    file name".  Kept apart from the declaration above, to be compared
    with it. *)
Definition jl_dylib_DI_for_fptr_listed : list (string * direction * ctype) :=
  [ ("pointer"%string, Input, Tsize_t);
    ("Section"%string, Output, TSectionRef);
    ("slide"%string, Output, Tint64_t);
    ("context"%string, Output, Tptr TDIContext);
    ("onlyImage"%string, Input, Tbool);
    ("isImage"%string, Output, Tbool);
    ("fbase"%string, Output, Tuint64_t);
    ("name"%string, Output, Tptr Tchar);
    ("filename"%string, Output, Tptr Tchar) ].

(** ** The dynamic-library resolver *)

Section DylibResolver.

Variable SectionRef : Type.
Variable DIContext : Type.

(** Modelled from the spec: what the resolver searches.  The body of
    [jl_dylib_DI_for_fptr] is in debuginfo.cpp, which is not among the
    sources; the header only declares it.  The spec has it search "the
    process's loaded shared libraries" and report "whether the result
    came from a loaded image, the image's base address, symbol name, and
    file name", with a section, a slide and a debug-info context.  Which
    addresses lie in a library is the library's own business
    ([lib_covers]): the spec gives no layout. *)
Record Library : Type := mkLibrary {
  lib_filename : string;
  lib_fbase : uint64_t;
  lib_isImage : bool;
  lib_covers : Z -> bool;
  lib_section : Z -> SectionRef;
  lib_slide : Z;
  lib_context : DIContext;
  lib_symbol : Z -> string
}.

(** Modelled from the spec: the output slots of the resolver, filled when
    the address is found ("out section, out slide, out debug_context,
    out is_image, out base_address, out symbol_name, out file_name"). *)
Record Resolution : Type := mkResolution {
  r_Section : SectionRef;
  r_slide : Z;
  r_context : DIContext;
  r_isImage : bool;
  r_fbase : uint64_t;
  r_name : string;
  r_filename : string
}.

Definition resolve_in (l : Library) (pointer : Z) : Resolution :=
  {| r_Section := lib_section l pointer;
     r_slide := lib_slide l;
     r_context := lib_context l;
     r_isImage := lib_isImage l;
     r_fbase := lib_fbase l;
     r_name := lib_symbol l pointer;
     r_filename := lib_filename l |}.

(** A library answers a lookup when it covers the address and, in
    image-only mode, is a loaded image. *)
Definition answers (onlyImage : bool) (pointer : Z) (l : Library) : bool :=
  lib_covers l pointer && (negb onlyImage || lib_isImage l).

(** Modelled from the spec: the body of [jl_dylib_DI_for_fptr], missing
    from the sources.  "Given a code address [...], searches loaded
    shared libraries for matching debug info, optionally restricting to
    image-only lookups, and returns symbol/file names and base address";
    it "returns a boolean found/not-found".  [loaded] is the process's
    list of loaded shared libraries; the second component holds the
    output slots when the address was found. *)
Definition jl_dylib_DI_for_fptr (loaded : list Library) (pointer : Z)
    (onlyImage : bool) : bool * option Resolution :=
  match find (answers onlyImage pointer) loaded with
  | Some l => (true, Some (resolve_in l pointer))
  | None => (false, None)
  end.

(** An address lies outside every known image when no loaded library
    covers it. *)
Definition outside_known_images (loaded : list Library) (pointer : Z) : Prop :=
  forall l : Library, In l loaded -> lib_covers l pointer = false.

End DylibResolver.

Arguments mkLibrary {SectionRef DIContext}.
Arguments lib_filename {SectionRef DIContext}.
Arguments lib_fbase {SectionRef DIContext}.
Arguments lib_isImage {SectionRef DIContext}.
Arguments lib_covers {SectionRef DIContext}.
Arguments answers {SectionRef DIContext}.
Arguments resolve_in {SectionRef DIContext}.
Arguments jl_dylib_DI_for_fptr {SectionRef DIContext}.
Arguments outside_known_images {SectionRef DIContext}.

(** Two concrete libraries laid out as address ranges, on which the
    statement about the resolver is exercised. *)
Definition range_library (file : string) (base size : Z) (image : bool)
  : Library ObjSection nat :=
  {| lib_filename := file;
     lib_fbase := base;
     lib_isImage := image;
     lib_covers := fun p => (base <=? p) && (p <? base + size);
     lib_section := fun p => mkObjSection 0 ((p - base) / 4096);
     lib_slide := 0;
     lib_context := 0%nat;
     lib_symbol := fun _ => file |}.

Definition two_libraries : list (Library ObjSection nat) :=
  [ range_library "libjulia.so" 4096 4096 false;
    range_library "sys.so" 16384 8192 true ].

(** ** makeAddress, when the call it makes may have no result

    The same body once more, for the one way a call of [makeAddress]
    can fail to return: the call of [getIndex] it makes.  A computation
    of type [ME St A] gives [None] when it has no result. *)

Definition ME (St A : Type) : Type := St -> option (A * St).

Definition retE {St A : Type} (a : A) : ME St A := fun st => Some (a, st).

Definition bindE {St A B : Type} (m : ME St A) (k : A -> ME St B) : ME St B :=
  fun st =>
    match m st with
    | Some (a, st') => k a st'
    | None => None
    end.

Notation "x <~ m ;; k" := (bindE m (fun x => k))
  (at level 61, m at next level, right associativity).

(** A call that always returns, as one that may not. *)
Definition always {St A : Type} (m : M St A) : ME St A :=
  fun st => Some (m st).

Section MakeAddressE.

Variable State : Type.
Variable SectionRef : Type.

(** [getIndex] is LLVM's: whether a call of it returns is for LLVM to
    say, so here it may have no result. *)
Variable getIndexE : SectionRef -> ME State uint64_t.

(** <<
        return object::SectionedAddress{address, Section.getIndex()};
    >> *)
Definition makeAddressE (Sec : SectionRef) (address : uint64_t)
  : ME State SectionedAddress :=
  idx <~ getIndexE Sec ;;
  retE {| Address := address; SectionIndex := idx |}.

End MakeAddressE.

Arguments makeAddressE {State SectionRef} getIndexE Sec address _.

(** A section reference as LLVM holds it: a handle and a pointer to the
    object file that owns the section.  [SectionRef()], the reference
    to no section, has a null owner.  [getIndex] asks the owner for the
    index of the handle ([OwningObject->getSectionIndex(SectionPimpl)]):
    through a null owner the call has no result. *)
Record OwnedSection : Type := mkOwnedSection {
  Owner : option nat;
  Pimpl : Z
}.

Definition SectionRef_default : OwnedSection :=
  {| Owner := None; Pimpl := 0 |}.

Definition ownedGetIndex (S : OwnedSection) : ME ObjMemory uint64_t :=
  match Owner S with
  | Some _ => retE (Pimpl S mod 2 ^ 64)
  | None => fun _ => None
  end.

(** ** The JIT's own resolver *)

(** What is stored in an [int]: the value, wrapped to 32 bits. *)
Definition to_int (z : Z) : Z := (z + 2 ^ 31) mod 2 ^ 32 - 2 ^ 31.

Section JitResolver.

Variable SectionRef : Type.
Variable DIContext : Type.

(** The spec names no status codes ("returns a status code"): the code
    for an address that was found and the code for one that was not are
    parameters. *)
Variable status_found : Z.
Variable status_missing : Z.

(** Modelled from the spec: what the JIT's resolver searches.  The body
    of [jl_DI_for_fptr] is in debuginfo.cpp, which is not among the
    sources.  The spec has it find, for a code address, "the matching
    loaded JIT image, its section, and a debug-info context, plus symbol
    size and unwinding slide". *)
Record JitImage : Type := mkJitImage {
  jit_covers : Z -> bool;
  jit_symsize : Z -> uint64_t;
  jit_slide : Z;
  jit_section : Z -> SectionRef;
  jit_context : DIContext
}.

(** Modelled from the spec: the output slots of [jl_DI_for_fptr] ("out
    symbol_size, out slide, out section, out debug_context"). *)
Record JitResolution : Type := mkJitResolution {
  jr_symsize : uint64_t;
  jr_slide : Z;
  jr_Section : SectionRef;
  jr_context : DIContext
}.

Definition jit_resolve_in (im : JitImage) (fptr : Z) : JitResolution :=
  {| jr_symsize := jit_symsize im fptr;
     jr_slide := jit_slide im;
     jr_Section := jit_section im fptr;
     jr_context := jit_context im |}.

(** Modelled from the spec: the body of [jl_DI_for_fptr], missing from
    the sources.  "Given a code address, finds the matching loaded JIT
    image, its section, and a debug-info context, plus symbol size and
    unwinding slide"; it "must search only the runtime's own JIT-emitted
    images" and "returns a status code", an [int].  [images] is the list
    of the JIT's loaded images; the second component holds the output
    slots when the address was found. *)
Definition jl_DI_for_fptr (images : list JitImage) (fptr : Z)
  : Z * option JitResolution :=
  match find (fun im => jit_covers im fptr) images with
  | Some im => (to_int status_found, Some (jit_resolve_in im fptr))
  | None => (to_int status_missing, None)
  end.

End JitResolver.

Arguments mkJitImage {SectionRef DIContext}.
Arguments jit_covers {SectionRef DIContext}.
Arguments jit_resolve_in {SectionRef DIContext}.
Arguments jl_DI_for_fptr {SectionRef DIContext}.

(** One JIT image laid out as an address range. *)
Definition range_image (base size : Z) : JitImage ObjSection nat :=
  {| jit_covers := fun p => (base <=? p) && (p <? base + size);
     jit_symsize := fun _ => 64;
     jit_slide := 0;
     jit_section := fun p => mkObjSection 0 ((p - base) / 4096);
     jit_context := 0%nat |}.

(* ================================================================== *)
(** * Part II: properties *)

(** ** Computations *)

Lemma result_bind_ret {St A B : Type} (m : M St A) (f : A -> B) (st : St) :
  result ((x <- m ;; ret (f x)) st) = f (result (m st)).
Proof.
  unfold bind, ret, result. destruct (m st) as [a st']. reflexivity.
Qed.

Lemma memory_after_bind_ret {St A B : Type} (m : M St A) (f : A -> B) (st : St) :
  memory_after ((x <- m ;; ret (f x)) st) = memory_after (m st).
Proof.
  unfold bind, ret, memory_after. destruct (m st) as [a st']. reflexivity.
Qed.

(** ** makeAddress *)

Section MakeAddressProperties.

Variable State : Type.
Variable SectionRef : Type.
Variable getIndex : SectionRef -> M State uint64_t.

(** What the value returned is, and what the memory is afterwards, in
    terms of the one call [makeAddress] makes. *)
Lemma makeAddress_result (S : SectionRef) (a : uint64_t) (st : State) :
  result (makeAddress getIndex S a st)
  = {| Address := a; SectionIndex := result (getIndex S st) |}.
Proof.
  unfold makeAddress.
  apply (result_bind_ret (getIndex S) (fun idx => mkSectionedAddress a idx)).
Qed.

Lemma makeAddress_memory (S : SectionRef) (a : uint64_t) (st : State) :
  memory_after (makeAddress getIndex S a st) = memory_after (getIndex S st).
Proof.
  unfold makeAddress.
  apply (memory_after_bind_ret (getIndex S) (fun idx => mkSectionedAddress a idx)).
Qed.

(** C1.  For every section reference [S] and every address [a],
    [makeAddress (S, a)] returns a sectioned address whose address
    component is [a] and whose section-index component is what
    [S.getIndex()] returns: the raw address paired with the index of the
    given section. *)
Theorem makeAddress_pairs_address_with_index
    (S : SectionRef) (a : uint64_t) (st : State) :
  Address (result (makeAddress getIndex S a st)) = a
  /\ SectionIndex (result (makeAddress getIndex S a st)) = result (getIndex S st).
Proof.
  rewrite makeAddress_result. split; reflexivity.
Qed.

(** C8.  [makeAddress] depends on the section only through its index:
    two section references with the same index give the same sectioned
    address for the same raw address, whatever else the memory holds at
    the two calls.  With [S1 = S2] and [st1 = st2] this is determinism:
    two runs on equal inputs give equal results. *)
Theorem makeAddress_depends_only_on_index
    (S1 S2 : SectionRef) (a : uint64_t) (st1 st2 : State) :
  result (getIndex S1 st1) = result (getIndex S2 st2) ->
  result (makeAddress getIndex S1 a st1) = result (makeAddress getIndex S2 a st2).
Proof.
  intros Hidx. rewrite !makeAddress_result. f_equal. exact Hidx.
Qed.

(** [getIndex] is an accessor ([uint64_t getIndex() const]): it writes
    nothing. *)
Hypothesis getIndex_const :
  forall (S : SectionRef) (st : State), memory_after (getIndex S st) = st.

(** C9.  [makeAddress] has no side effects: the memory after the call is
    the memory before it, so the section (its index read again after the
    call) and all other program state are unchanged; the call only
    builds and returns a sectioned address. *)
Theorem makeAddress_no_side_effects
    (S : SectionRef) (a : uint64_t) (st : State) :
  memory_after (makeAddress getIndex S a st) = st
  /\ result (getIndex S (memory_after (makeAddress getIndex S a st)))
     = result (getIndex S st).
Proof.
  assert (Hmem : memory_after (makeAddress getIndex S a st) = st).
  { rewrite makeAddress_memory. apply getIndex_const. }
  split; [exact Hmem | rewrite Hmem; reflexivity].
Qed.

End MakeAddressProperties.

(** The concrete section references satisfy what is assumed of
    [getIndex]. *)
Lemma objGetIndex_const (S : ObjSection) (st : ObjMemory) :
  memory_after (objGetIndex S st) = st.
Proof. reflexivity. Qed.

(** [makeAddress] run on section 3 of object file 0, at address 4096. *)
Example makeAddress_run :
  makeAddress objGetIndex (mkObjSection 0 3) 4096 2%nat
  = ({| Address := 4096; SectionIndex := 3 |}, 2%nat).
Proof. reflexivity. Qed.

(** An index that does not fit 64 bits cannot come out of [getIndex]. *)
Example makeAddress_run_wrapped :
  makeAddress objGetIndex (mkObjSection 1 (2 ^ 64 + 5)) UINT64_MAX 2%nat
  = ({| Address := 2 ^ 64 - 1; SectionIndex := 5 |}, 2%nat).
Proof. reflexivity. Qed.

(** Sections 3 of two different object files, at the same address. *)
Lemma makeAddress_depends_only_on_index_witness :
  mkObjSection 0 3 <> mkObjSection 1 3
  /\ result (makeAddress objGetIndex (mkObjSection 0 3) 4096 2%nat)
     = result (makeAddress objGetIndex (mkObjSection 1 3) 4096 5%nat).
Proof.
  split.
  - discriminate.
  - apply (makeAddress_depends_only_on_index ObjMemory ObjSection objGetIndex).
    reflexivity.
Defined.

Lemma makeAddress_no_side_effects_witness :
  memory_after (makeAddress objGetIndex (mkObjSection 0 3) 4096 2%nat) = 2%nat
  /\ result (objGetIndex (mkObjSection 0 3)
               (memory_after (makeAddress objGetIndex (mkObjSection 0 3) 4096 2%nat)))
     = result (objGetIndex (mkObjSection 0 3) 2%nat).
Proof.
  apply (makeAddress_no_side_effects ObjMemory ObjSection objGetIndex).
  exact objGetIndex_const.
Defined.

(** ** makeAddress, when the call it makes may have no result *)

Section MakeAddressEProperties.

Variable State : Type.
Variable SectionRef : Type.
Variable getIndexE : SectionRef -> ME State uint64_t.

(** A call of [makeAddress] has no result exactly when the call of
    [getIndex] it makes has none: the body adds no failure of its own. *)
Lemma makeAddressE_fails_iff (S : SectionRef) (a : uint64_t) (st : State) :
  makeAddressE getIndexE S a st = None <-> getIndexE S st = None.
Proof.
  unfold makeAddressE, bindE, retE.
  destruct (getIndexE S st) as [[idx st'] | ]; split; intros H;
    try discriminate H; reflexivity.
Qed.

(** C10, amended.  For every section reference on which [getIndex]
    returns, and every address, [makeAddress] returns a sectioned
    address: the address paired with the index [getIndex] returned, in
    the memory [getIndex] left.  The body has no error, failure or
    branch of its own. *)
Theorem makeAddress_returns_where_getIndex_returns
    (S : SectionRef) (a : uint64_t) (st : State) :
  (exists out : uint64_t * State, getIndexE S st = Some out) ->
  exists (sa : SectionedAddress) (st' : State),
    makeAddressE getIndexE S a st = Some (sa, st')
    /\ Address sa = a
    /\ getIndexE S st = Some (SectionIndex sa, st').
Proof.
  intros [[idx st'] Hidx].
  exists {| Address := a; SectionIndex := idx |}, st'.
  unfold makeAddressE, bindE, retE. rewrite Hidx.
  repeat split.
Qed.

End MakeAddressEProperties.

(** With a [getIndex] that always returns, the two embeddings of
    [makeAddress] agree. *)
Lemma makeAddressE_always {State SectionRef : Type}
    (getIndex : SectionRef -> M State uint64_t)
    (S : SectionRef) (a : uint64_t) (st : State) :
  makeAddressE (fun S' => always (getIndex S')) S a st
  = Some (makeAddress getIndex S a st).
Proof.
  unfold makeAddressE, makeAddress, bindE, bind, retE, ret, always.
  destruct (getIndex S st) as [idx st']. reflexivity.
Qed.

(** C10, as the claim states it: [makeAddress] does not return a
    sectioned address for every section reference.  On [SectionRef()],
    the reference to no section, the call of [getIndex] goes through a
    null owner, and the call of [makeAddress] has no result. *)
Lemma makeAddress_no_result_on_default_section :
  is_uint64 4096
  /\ ~ (exists (sa : SectionedAddress) (st' : ObjMemory),
          makeAddressE ownedGetIndex SectionRef_default 4096 2%nat
          = Some (sa, st')).
Proof.
  split.
  - unfold is_uint64, UINT64_MAX. lia.
  - intros [sa [st' H]]. discriminate H.
Qed.

(** Section 3 of object file 0 has an owner: the call returns. *)
Lemma makeAddress_returns_where_getIndex_returns_witness :
  exists (sa : SectionedAddress) (st' : ObjMemory),
    makeAddressE ownedGetIndex (mkOwnedSection (Some 0%nat) 3) 4096 2%nat
    = Some (sa, st')
    /\ Address sa = 4096
    /\ ownedGetIndex (mkOwnedSection (Some 0%nat) 3) 2%nat
       = Some (SectionIndex sa, st').
Proof.
  apply (makeAddress_returns_where_getIndex_returns
           ObjMemory OwnedSection ownedGetIndex).
  exists (3, 2%nat). reflexivity.
Defined.

(** ** The declarations *)

(** Values of an unsigned size are integers, and never negative. *)
Lemma size_t_values (size_bits : Z) (v : value) :
  has_value size_bits Tsize_t v -> exists z : Z, v = Vint z /\ 0 <= z.
Proof.
  destruct v as [z | b | a | ]; simpl; try contradiction.
  intros [Hlo _]. exists z. split; [reflexivity | exact Hlo].
Qed.

Lemma int_values (size_bits : Z) (v : value) :
  has_value size_bits Tint v ->
  exists z : Z, v = Vint z /\ - 2 ^ 31 <= z < 2 ^ 31.
Proof.
  destruct v as [z | b | a | ]; simpl; try contradiction.
  intros Hz. exists z. split; [reflexivity | exact Hz].
Qed.

Lemma bool_values (size_bits : Z) (v : value) :
  has_value size_bits Tbool v -> v = Vbool true \/ v = Vbool false.
Proof.
  destruct v as [z | b | a | ]; simpl; try contradiction.
  intros _. destruct b; [left | right]; reflexivity.
Qed.

Lemma void_no_value (size_bits : Z) (v : value) :
  ~ has_value size_bits Tvoid v.
Proof. simpl. intros H. exact H. Qed.

(** C2.  [jl_jit_add_bytes] takes a single argument, a byte count of
    unsigned size, so never negative, and returns no value: its return
    type is [void], which has no values. *)
Theorem jl_jit_add_bytes_signature :
  signature jl_jit_add_bytes_decl = [ ("bytes"%string, Input, Tsize_t) ]
  /\ (forall (size_bits : Z) (p : param) (v : value),
         In p (f_params jl_jit_add_bytes_decl) ->
         has_value size_bits (p_type p) v ->
         exists z : Z, v = Vint z /\ 0 <= z)
  /\ f_ret jl_jit_add_bytes_decl = Tvoid
  /\ (forall (size_bits : Z) (v : value),
         ~ has_value size_bits (f_ret jl_jit_add_bytes_decl) v).
Proof.
  split; [reflexivity | split; [ | split; [reflexivity | ] ] ].
  - intros size_bits p v [<- | []] Hv. exact (size_t_values size_bits v Hv).
  - intros size_bits v. apply void_no_value.
Qed.

(** The declaration of [jl_DI_for_fptr]: in this order, the address
    ([fptr], by value) and output slots for the symbol size
    ([symsize]), the unwinding slide ([slide]), the owning section
    ([Section]) and a debug-info context ([context]); the return type
    is [int]. *)
Lemma jl_DI_for_fptr_signature :
  signature jl_DI_for_fptr_decl
  = [ ("fptr"%string, Input, Tuint64_t);
      ("symsize"%string, Output, Tuint64_t);
      ("slide"%string, Output, Tint64_t);
      ("Section"%string, Output, TSectionRef);
      ("context"%string, Output, Tptr TDIContext) ]
  /\ f_ret jl_DI_for_fptr_decl = Tint
  /\ (forall (size_bits : Z) (v : value),
         has_value size_bits (f_ret jl_DI_for_fptr_decl) v ->
         exists z : Z, v = Vint z /\ - 2 ^ 31 <= z < 2 ^ 31).
Proof.
  split; [reflexivity | split; [reflexivity | ] ].
  intros size_bits v Hv. exact (int_values size_bits v Hv).
Qed.

(** The declaration of [jl_dylib_DI_for_fptr] has one parameter more
    than the nine the specification lists: the eighth, the output slot
    [saddr] for the symbol's address. *)
Lemma jl_dylib_DI_for_fptr_not_as_listed :
  signature jl_dylib_DI_for_fptr_decl <> jl_dylib_DI_for_fptr_listed
  /\ List.length (signature jl_dylib_DI_for_fptr_decl) = 10%nat
  /\ List.length jl_dylib_DI_for_fptr_listed = 9%nat
  /\ nth_error (signature jl_dylib_DI_for_fptr_decl) 7
     = Some ("saddr"%string, Output, Tptr Tvoid)
  /\ ~ In ("saddr"%string, Output, Tptr Tvoid) jl_dylib_DI_for_fptr_listed.
Proof.
  repeat split; try reflexivity.
  - intros Heq. apply (f_equal (@List.length _)) in Heq. discriminate Heq.
  - simpl. intros H.
    repeat (destruct H as [H | H]; [discriminate H | ]). exact H.
Qed.

(** The declaration of [jl_dylib_DI_for_fptr] in full: the address
    ([pointer]), output slots for the section, the slide and the
    debug-info context, the image-only input flag ([onlyImage]), and
    output slots for whether the result came from a loaded image
    ([isImage]), the image's base address ([fbase]), the symbol's
    address ([saddr]), the symbol name ([name]) and the file name
    ([filename]); the return type is [bool].  Leaving [saddr] out gives
    the list of the specification. *)
Lemma jl_dylib_DI_for_fptr_signature :
  signature jl_dylib_DI_for_fptr_decl
  = [ ("pointer"%string, Input, Tsize_t);
      ("Section"%string, Output, TSectionRef);
      ("slide"%string, Output, Tint64_t);
      ("context"%string, Output, Tptr TDIContext);
      ("onlyImage"%string, Input, Tbool);
      ("isImage"%string, Output, Tbool);
      ("fbase"%string, Output, Tuint64_t);
      ("saddr"%string, Output, Tptr Tvoid);
      ("name"%string, Output, Tptr Tchar);
      ("filename"%string, Output, Tptr Tchar) ]
  /\ filter (fun d => negb (String.eqb (fst (fst d)) "saddr"))
       (signature jl_dylib_DI_for_fptr_decl)
     = jl_dylib_DI_for_fptr_listed
  /\ f_ret jl_dylib_DI_for_fptr_decl = Tbool
  /\ (forall (size_bits : Z) (v : value),
         has_value size_bits (f_ret jl_dylib_DI_for_fptr_decl) v ->
         v = Vbool true \/ v = Vbool false).
Proof.
  split; [reflexivity | split; [reflexivity | split; [reflexivity | ] ] ].
  intros size_bits v Hv. exact (bool_values size_bits v Hv).
Qed.

(** The entry points of the header are the three functions it declares
    without a body, and each of them is annotated [JL_NOTSAFEPOINT]; so
    is [makeAddress]. *)
Lemma entry_points_notsafepoint :
  map f_name entry_points
  = [ "jl_jit_add_bytes"%string; "jl_DI_for_fptr"%string;
      "jl_dylib_DI_for_fptr"%string ]
  /\ forallb f_notsafepoint entry_points = true
  /\ f_notsafepoint makeAddress_decl = true.
Proof. repeat split. Qed.

(** The declaration of [makeAddress] agrees with its embedding: a
    section and a 64-bit address in, a sectioned address out. *)
Lemma makeAddress_signature :
  signature makeAddress_decl
  = [ ("Section"%string, Input, TSectionRef);
      ("address"%string, Input, Tuint64_t) ]
  /\ f_ret makeAddress_decl = TSectionedAddress.
Proof. split; reflexivity. Qed.

(** ** The JIT's own resolver *)


Lemma to_int_id (z : Z) : - 2 ^ 31 <= z < 2 ^ 31 -> to_int z = z.
Proof.
  intros Hz. unfold to_int. rewrite Z.mod_small; lia.
Qed.

Section JitResolverProperties.

Variable SectionRef : Type.
Variable DIContext : Type.
Variable status_found : Z.
Variable status_missing : Z.

Abbreviation Image := (JitImage SectionRef DIContext).


End JitResolverProperties.

(** An address in the JIT's image and one outside it, with 1 and 0 for
    the two status codes. *)
Example jit_resolver_run :
  fst (jl_DI_for_fptr 1 0 [range_image 4096 4096] 5000) = 1
  /\ fst (jl_DI_for_fptr 1 0 [range_image 4096 4096] 9000) = 0.
Proof. split; reflexivity. Qed.

(** ** The dynamic-library resolver *)

Section DylibResolverProperties.

Variable SectionRef : Type.
Variable DIContext : Type.

Abbreviation Lib := (Library SectionRef DIContext).

(** A library that does not cover the address answers no lookup. *)
Lemma answers_covers (onlyImage : bool) (pointer : Z) (l : Lib) :
  answers onlyImage pointer l = true -> lib_covers l pointer = true.
Proof.
  unfold answers. intros H. apply andb_true_iff in H. tauto.
Qed.

(** The search fails exactly when no loaded library answers. *)
Lemma find_answers_none (onlyImage : bool) (pointer : Z) (loaded : list Lib) :
  (forall l, In l loaded -> answers onlyImage pointer l = false) ->
  find (answers onlyImage pointer) loaded = None.
Proof.
  induction loaded as [ | l rest IH]; intros Hnone; simpl.
  - reflexivity.
  - rewrite (Hnone l (or_introl eq_refl)).
    apply IH. intros l' Hin. apply Hnone. right. exact Hin.
Qed.

(** A found address lies in a loaded library, which the lookup mode
    admits. *)
Lemma jl_dylib_DI_for_fptr_found (loaded : list Lib) (pointer : Z)
    (onlyImage : bool) :
  fst (jl_dylib_DI_for_fptr loaded pointer onlyImage) = true ->
  exists l : Lib,
    In l loaded /\ lib_covers l pointer = true
    /\ (onlyImage = true -> lib_isImage l = true)
    /\ snd (jl_dylib_DI_for_fptr loaded pointer onlyImage)
       = Some (resolve_in l pointer).
Proof.
  unfold jl_dylib_DI_for_fptr.
  destruct (find (answers onlyImage pointer) loaded) as [l | ] eqn:Hfind;
    simpl; intros Hfound; [ | discriminate Hfound].
  apply find_some in Hfind. destruct Hfind as [Hin Hans].
  exists l. unfold answers in Hans. apply andb_true_iff in Hans.
  destruct Hans as [Hcov Hmode].
  repeat split; try assumption.
  intros ->. simpl in Hmode. exact Hmode.
Qed.

(** C6.  For every address that lies outside every known image, the
    resolver returns false, not found, in either lookup mode, and fills
    no output slot. *)
Theorem jl_dylib_DI_for_fptr_outside_not_found
    (loaded : list Lib) (pointer : Z) (onlyImage : bool) :
  outside_known_images loaded pointer ->
  jl_dylib_DI_for_fptr loaded pointer onlyImage = (false, None).
Proof.
  intros Hout. unfold jl_dylib_DI_for_fptr.
  rewrite find_answers_none; [reflexivity | ].
  intros l Hin. unfold answers. rewrite (Hout l Hin). reflexivity.
Qed.


End DylibResolverProperties.

(** An address covered by the second library is found in it. *)
Example resolver_run_found :
  fst (jl_dylib_DI_for_fptr two_libraries 20000 true) = true
  /\ option_map (@r_filename ObjSection nat)
       (snd (jl_dylib_DI_for_fptr two_libraries 20000 true))
     = Some "sys.so"%string.
Proof. split; reflexivity. Qed.

(** An address covered by a library that is no image is not found in
    image-only mode. *)
Example resolver_run_only_image :
  fst (jl_dylib_DI_for_fptr two_libraries 5000 false) = true
  /\ fst (jl_dylib_DI_for_fptr two_libraries 5000 true) = false.
Proof. split; reflexivity. Qed.

Lemma two_libraries_outside : outside_known_images two_libraries 12288.
Proof.
  intros l [<- | [<- | []]]; reflexivity.
Qed.

(** Address 12288 lies between the two libraries. *)
Lemma jl_dylib_DI_for_fptr_outside_not_found_witness :
  jl_dylib_DI_for_fptr two_libraries 12288 false = (false, None)
  /\ jl_dylib_DI_for_fptr two_libraries 12288 true = (false, None).
Proof.
  split;
    apply (jl_dylib_DI_for_fptr_outside_not_found ObjSection nat);
    exact two_libraries_outside.
Defined.

(** ** makeAddress: what its callers can rely on *)

Section MakeAddressUse.

Variable State : Type.
Variable SectionRef : Type.
Variable getIndex : SectionRef -> M State uint64_t.

(** X1.  A sectioned address loses nothing: two calls return the same
    sectioned address exactly when they were given the same raw address
    and sections of the same index.  So the same raw address in sections
    of different index, or different addresses in one section, are never
    confused. *)
Theorem makeAddress_result_eq_iff
    (S1 S2 : SectionRef) (a1 a2 : uint64_t) (st1 st2 : State) :
  result (makeAddress getIndex S1 a1 st1) = result (makeAddress getIndex S2 a2 st2)
  <-> a1 = a2 /\ result (getIndex S1 st1) = result (getIndex S2 st2).
Proof.
  rewrite !makeAddress_result. split.
  - intros Heq. injection Heq as Ha Hidx. split; assumption.
  - intros [-> ->]. reflexivity.
Qed.

Hypothesis getIndex_const :
  forall (S : SectionRef) (st : State), memory_after (getIndex S st) = st.

(** With [getIndex] an accessor, the whole outcome of a call is known
    from the memory it starts in. *)
Lemma makeAddress_outcome (S : SectionRef) (a : uint64_t) (st : State) :
  makeAddress getIndex S a st = (result (makeAddress getIndex S a st), st).
Proof.
  rewrite (surjective_pairing (makeAddress getIndex S a st)) at 1.
  unfold result. f_equal.
  change (memory_after (makeAddress getIndex S a st) = st).
  rewrite makeAddress_memory. apply getIndex_const.
Qed.

(** X2.  Calls of [makeAddress] do not disturb one another: made one
    after the other, each returns what it would return alone from the
    memory at the start, in either order, and the memory at the end is
    the memory at the start. *)
Theorem makeAddress_calls_independent
    (S1 S2 : SectionRef) (a1 a2 : uint64_t) (st : State) :
  (r1 <- makeAddress getIndex S1 a1 ;;
   r2 <- makeAddress getIndex S2 a2 ;;
   ret (r1, r2)) st
  = ((result (makeAddress getIndex S1 a1 st),
      result (makeAddress getIndex S2 a2 st)), st)
  /\ (r2 <- makeAddress getIndex S2 a2 ;;
      r1 <- makeAddress getIndex S1 a1 ;;
      ret (r1, r2)) st
     = ((result (makeAddress getIndex S1 a1 st),
         result (makeAddress getIndex S2 a2 st)), st).
Proof.
  split; unfold bind at 1.
  - rewrite (makeAddress_outcome S1 a1 st). unfold bind at 1.
    rewrite (makeAddress_outcome S2 a2 st). reflexivity.
  - rewrite (makeAddress_outcome S2 a2 st). unfold bind at 1.
    rewrite (makeAddress_outcome S1 a1 st). reflexivity.
Qed.

End MakeAddressUse.

Lemma tableGetIndex_const (S : ObjSection) (st : TableMemory) :
  memory_after (tableGetIndex S st) = st.
Proof. reflexivity. Qed.

(** Section 2 of the object file whose headers start at 4096, and
    section 1 of the one whose headers start at 8192. *)
Lemma makeAddress_calls_independent_witness :
  (r1 <- makeAddress tableGetIndex (mkObjSection 0 4224) 100 ;;
   r2 <- makeAddress tableGetIndex (mkObjSection 1 8256) 200 ;;
   ret (r1, r2)) [4096; 8192]
  = (({| Address := 100; SectionIndex := 2 |},
      {| Address := 200; SectionIndex := 1 |}), [4096; 8192])
  /\ (r2 <- makeAddress tableGetIndex (mkObjSection 1 8256) 200 ;;
      r1 <- makeAddress tableGetIndex (mkObjSection 0 4224) 100 ;;
      ret (r1, r2)) [4096; 8192]
     = (({| Address := 100; SectionIndex := 2 |},
         {| Address := 200; SectionIndex := 1 |}), [4096; 8192]).
Proof.
  apply (makeAddress_calls_independent TableMemory ObjSection tableGetIndex
           tableGetIndex_const
           (mkObjSection 0 4224) (mkObjSection 1 8256) 100 200 [4096; 8192]).
Defined.

(** The assumption is needed: with a [getIndex] that writes, the second
    call of two sees what the first left, and the order shows. *)
Example makeAddress_calls_disturbed :
  result ((r1 <- makeAddress countingGetIndex (mkObjSection 0 0) 100 ;;
           r2 <- makeAddress countingGetIndex (mkObjSection 0 0) 100 ;;
           ret (r1, r2)) 0)
  = ({| Address := 100; SectionIndex := 0 |},
     {| Address := 100; SectionIndex := 1 |}).
Proof. reflexivity. Qed.
